(** * s3_path_wrangler: a shallow embedding of [paths.py]

    The module [s3_path_wrangler/paths.py] defines one class, [S3Path], a
    value made of a list of path parts and an absoluteness flag.  Every
    method is a pure function of the receiver and its arguments, so the class
    is embedded as a record together with one Rocq function per method.  A
    method that can raise returns a [result].

    Python strings are embedded as [string]; a character is a code point
    below 256. *)

From Stdlib Require Import Bool Arith Lia List Ascii String.
Import ListNotations.

Local Open Scope string_scope.
Local Open Scope list_scope.

(** ** Exceptions *)

(** The three exception classes of the module (each a subclass of
    [ValueError] in the source), the plain [ValueError] that [__truediv__]
    raises, and the [IndexError] of an out-of-range subscript. *)
Inductive exn : Set :=
| InvalidPathError
| UnknownBucketError
| InvalidBucketError
| ValueError
| IndexError.

Inductive result (A : Type) : Type :=
| Ok (a : A)
| Raise (e : exn).

Arguments Ok {A} a.
Arguments Raise {A} e.

Definition bind {A B : Type} (r : result A) (k : A -> result B) : result B :=
  match r with
  | Ok a => k a
  | Raise e => Raise e
  end.

Notation "x <- r ;; k" := (bind r (fun x => k))
  (at level 61, r at next level, right associativity).
Notation "r ;;; k" := (bind r (fun _ => k))
  (at level 61, right associativity).

(** ** The built-in string methods the module calls *)

Module Py.

(** [c in chars] for a one-character [c]. *)
Fixpoint mem (c : ascii) (chars : string) : bool :=
  match chars with
  | EmptyString => false
  | String d chars' => Ascii.eqb c d || mem c chars'
  end.

(** [s.startswith(prefix)] *)
Fixpoint startswith (s prefix : string) : bool :=
  match prefix with
  | EmptyString => true
  | String d prefix' =>
      match s with
      | EmptyString => false
      | String c s' => Ascii.eqb c d && startswith s' prefix'
      end
  end.

(** [s.lstrip(chars)]: drops the longest prefix made of characters of
    [chars]; [chars] is a set of characters, not a prefix string. *)
Fixpoint lstrip (s chars : string) : string :=
  match s with
  | EmptyString => EmptyString
  | String c s' => if mem c chars then lstrip s' chars else s
  end.

(** [s.rstrip(chars)]: the same from the right. *)
Fixpoint rstrip (s chars : string) : string :=
  match s with
  | EmptyString => EmptyString
  | String c s' =>
      match rstrip s' chars with
      | EmptyString => if mem c chars then EmptyString else String c EmptyString
      | r => String c r
      end
  end.

(** [s.strip(chars)] *)
Definition strip (s chars : string) : string :=
  rstrip (lstrip s chars) chars.

(** [s.split(sep)] for a one-character separator: never the empty list,
    and [[""]] for the empty string. *)
Fixpoint split (s : string) (sep : ascii) : list string :=
  match s with
  | EmptyString => [EmptyString]
  | String c s' =>
      if Ascii.eqb c sep then EmptyString :: split s' sep
      else
        match split s' sep with
        | h :: t => String c h :: t
        | [] => [String c EmptyString]
        end
  end.

(** [sep.join(l)] *)
Fixpoint join (sep : string) (l : list string) : string :=
  match l with
  | [] => EmptyString
  | [x] => x
  | x :: l' => (x ++ sep ++ join sep l')%string
  end.

(** The code points below 256 that [str.isspace] counts as whitespace:
    TAB to CR, FS to US, the space, NEL and the no-break space. *)
Definition isspace_char (c : ascii) : bool :=
  let n := nat_of_ascii c in
  ((9 <=? n) && (n <=? 13) || (28 <=? n) && (n <=? 32)
   || (n =? 133) || (n =? 160))%nat.

Fixpoint all_chars (f : ascii -> bool) (s : string) : bool :=
  match s with
  | EmptyString => true
  | String c s' => f c && all_chars f s'
  end.

(** [bool(s)] *)
Definition truthy (s : string) : bool :=
  match s with
  | EmptyString => false
  | String _ _ => true
  end.

(** [s.isspace()]: at least one character, and all of them whitespace. *)
Definition isspace (s : string) : bool :=
  truthy s && all_chars isspace_char s.

(** [l[0]] *)
Definition getitem0 {A : Type} (l : list A) : result A :=
  match l with
  | [] => Raise IndexError
  | x :: _ => Ok x
  end.

(** [l[-1]] *)
Fixpoint getitem_last {A : Type} (l : list A) : result A :=
  match l with
  | [] => Raise IndexError
  | [x] => Ok x
  | _ :: l' => getitem_last l'
  end.

(** [l[0] = v] on a copy of [l] *)
Definition setitem0 {A : Type} (l : list A) (v : A) : result (list A) :=
  match l with
  | [] => Raise IndexError
  | _ :: l' => Ok (v :: l')
  end.

(** [l1 == l2] on lists of strings *)
Fixpoint list_eqb (l1 l2 : list string) : bool :=
  match l1, l2 with
  | [], [] => true
  | x :: l1', y :: l2' => String.eqb x y && list_eqb l1' l2'
  | _, _ => false
  end.

End Py.

(** ** The bucket-name pattern *)

Definition is_digit (c : ascii) : bool :=
  let n := nat_of_ascii c in ((48 <=? n) && (n <=? 57))%nat.

Definition is_upper (c : ascii) : bool :=
  let n := nat_of_ascii c in ((65 <=? n) && (n <=? 90))%nat.

Definition is_lower (c : ascii) : bool :=
  let n := nat_of_ascii c in ((97 <=? n) && (n <=? 122))%nat.

Definition hyphen : ascii := "-"%char.

(** The character class [[a-zA-Z0-9-]]. *)
Definition is_dns_char (c : ascii) : bool :=
  is_lower c || is_upper c || is_digit c || Ascii.eqb c hyphen.

Fixpoint last_char (s : string) : option ascii :=
  match s with
  | EmptyString => None
  | String c EmptyString => Some c
  | String _ s' => last_char s'
  end.

(** [re.fullmatch(DNS_NAME_REGEX, s)] as a truth value, where
    [DNS_NAME_REGEX] is [(?![0-9]+$)(?!-)[a-zA-Z0-9-]{,63}(?<!-)].  The match
    is anchored at both ends, so the four pieces of the pattern read, in
    order: the text is not one or more digits up to its end; it does not
    start with a hyphen; it is at most 63 characters of the class; the
    character before its end is not a hyphen. *)
Definition fullmatch_DNS_NAME_REGEX (s : string) : bool :=
  negb (Py.truthy s && Py.all_chars is_digit s)
  && negb (Py.startswith s "-")
  && (Py.all_chars is_dns_char s && (String.length s <=? 63)%nat)
  && negb (match last_char s with Some c => Ascii.eqb c hyphen | None => false end).

(** ** The class [S3Path] *)

Record S3Path : Type := MkS3Path {
  parts : list string;
  is_absolute : bool
}.

Definition _PREFIX : string := "s3://".

Definition slash : ascii := "/"%char.

(** [S3Path._is_valid_part] *)
Definition _is_valid_part (part : string) : bool :=
  Py.truthy part && negb (Py.isspace part) && negb (Py.mem slash part).

(** [S3Path._validate_parts]: [not parts or any(not valid ...)] raises. *)
Definition _validate_parts (ps : list string) : result unit :=
  if match ps with [] => true | _ => false end
     || existsb (fun part => negb (_is_valid_part part)) ps
  then Raise InvalidPathError
  else Ok tt.

(** [S3Path._validate_bucket] *)
Definition _validate_bucket (bucket : string) : result unit :=
  if negb (fullmatch_DNS_NAME_REGEX bucket) then Raise InvalidBucketError
  else Ok tt.

(** [S3Path.__init__]: the constructor, [S3Path(path)]. *)
Definition __init__ (path : string) : result S3Path :=
  if Py.startswith path "/" then Raise InvalidPathError
  else
    let '(absolute, path) :=
      if Py.startswith path _PREFIX then (true, Py.lstrip path _PREFIX)
      else (false, path) in
    let ps := Py.split (Py.strip path "/") slash in
    _validate_parts ps ;;;
    (if absolute then b <- Py.getitem0 ps ;; _validate_bucket b else Ok tt) ;;;
    Ok (MkS3Path ps absolute).

(** [S3Path.from_parts] *)
Definition from_parts (ps : list string) (absolute : bool) : result S3Path :=
  let part_list := ps in
  _validate_parts part_list ;;;
  path <- (if absolute
           then b <- Py.getitem0 part_list ;; _validate_bucket b ;;; Ok _PREFIX
           else Ok "") ;;
  let path := (path ++ Py.join "/" part_list)%string in
  __init__ path.

(** [S3Path.to_absolute] *)
Definition to_absolute (self : S3Path) : result S3Path :=
  if is_absolute self then Ok self
  else from_parts (parts self) true.

(** [S3Path.with_bucket] *)
Definition with_bucket (self : S3Path) (bucket : string) : result S3Path :=
  let stripped_bucket := Py.strip bucket "/" in
  _validate_bucket stripped_bucket ;;;
  new_parts <- (if is_absolute self then Py.setitem0 (parts self) bucket
                else Ok (stripped_bucket :: parts self)) ;;
  from_parts new_parts true.

(** [S3Path.bucket] *)
Definition bucket (self : S3Path) : result string :=
  if negb (is_absolute self) then Raise UnknownBucketError
  else Py.getitem0 (parts self).

(** [S3Path.key]; [parts[1:]] is [tl]. *)
Definition key (self : S3Path) : result string :=
  if is_absolute self then Ok (Py.join "/" (tl (parts self)))
  else Raise UnknownBucketError.

(** [S3Path.name] *)
Definition name (self : S3Path) : result string :=
  Py.getitem_last (parts self).

(** [S3Path.parent]; [parts[:-1]] is [removelast], [None] is [None]. *)
Definition parent (self : S3Path) : result (option S3Path) :=
  if (List.length (parts self) =? 1)%nat then Ok None
  else p <- from_parts (removelast (parts self)) (is_absolute self) ;; Ok (Some p).

(** [S3Path.__truediv__]: the operand is a string ([inl]) or a path ([inr]). *)
Definition __truediv__ (self : S3Path) (other : string + S3Path) : result S3Path :=
  other_path <- match other with
                | inl s => let path_str := Py.lstrip s "/" in __init__ path_str
                | inr o => if is_absolute o then Raise ValueError else Ok o
                end ;;
  let combined_parts := parts self ++ parts other_path in
  from_parts combined_parts (is_absolute self).

(** [S3Path.__repr__] *)
Definition __repr__ (self : S3Path) : string :=
  let relative_representation := Py.join "/" (parts self) in
  if is_absolute self then (_PREFIX ++ relative_representation)%string
  else relative_representation.

(** [S3Path.__eq__] *)
Definition __eq__ (self : S3Path) (other : string + S3Path) : result bool :=
  other_path <- match other with
                | inl s => __init__ s
                | inr o => Ok o
                end ;;
  Ok (Py.list_eqb (parts self) (parts other_path)
      && Bool.eqb (is_absolute self) (is_absolute other_path)).

(** ** Vocabulary of the statements *)

Import Py.

Definition head_char (s : string) : option ascii :=
  match s with
  | EmptyString => None
  | String c _ => Some c
  end.

(** What [_validate_parts] accepts. *)
Definition valid_parts (ps : list string) : Prop :=
  ps <> [] /\ Forall (fun part => _is_valid_part part = true) ps.

(** The text does not start with a character that [lstrip(_PREFIX)]
    removes, that is with one of [s], [3], [:] and [/]. *)
Definition clean_head (s : string) : bool :=
  match head_char s with
  | Some c => negb (mem c _PREFIX)
  | None => true
  end.

(** What the constructor establishes: valid parts and, for an absolute
    path, a bucket that matches the pattern and has a clean head. *)
Definition wf (p : S3Path) : Prop :=
  valid_parts (parts p)
  /\ (is_absolute p = true ->
      exists b rest, parts p = b :: rest
                     /\ fullmatch_DNS_NAME_REGEX b = true
                     /\ clean_head b = true).

(** The data invariant of a path: at least one part; no part empty, all
    whitespace or with a slash; the first part of an absolute path matches
    the bucket pattern. *)
Definition invariant (p : S3Path) : Prop :=
  parts p <> []
  /\ (forall part, In part (parts p) ->
        part <> EmptyString /\ isspace part = false /\ mem slash part = false)
  /\ (is_absolute p = true ->
      exists b rest, parts p = b :: rest /\ fullmatch_DNS_NAME_REGEX b = true).

(** The paths a client can hold: those returned by the constructor, by
    [from_parts], and by a method called on such paths. *)
Inductive produced : S3Path -> Prop :=
| produced_init (text : string) (p : S3Path) :
    __init__ text = Ok p -> produced p
| produced_from_parts (ps : list string) (a : bool) (p : S3Path) :
    from_parts ps a = Ok p -> produced p
| produced_to_absolute (p q : S3Path) :
    produced p -> to_absolute p = Ok q -> produced q
| produced_with_bucket (p : S3Path) (b : string) (q : S3Path) :
    produced p -> with_bucket p b = Ok q -> produced q
| produced_parent (p q : S3Path) :
    produced p -> parent p = Ok (Some q) -> produced q
| produced_truediv_str (p : S3Path) (s : string) (q : S3Path) :
    produced p -> __truediv__ p (inl s) = Ok q -> produced q
| produced_truediv_path (p o q : S3Path) :
    produced p -> produced o -> __truediv__ p (inr o) = Ok q -> produced q.

(** [parent] applied [n] times; [None] once a path has no parent. *)
Fixpoint parent_iter (n : nat) (p : S3Path) : result (option S3Path) :=
  match n with
  | O => Ok (Some p)
  | S n' =>
      r <- parent p ;;
      match r with
      | Some q => parent_iter n' q
      | None => Ok None
      end
  end.

(** The string of [k] slashes. *)
Fixpoint slashes (k : nat) : string :=
  match k with
  | O => EmptyString
  | S k' => String slash (slashes k')
  end.

(** ** Facts about the string methods *)

Module PyFacts.
Import Py.

Lemma startswith_app (p t : string) : startswith (p ++ t)%string p = true.
Proof.
  induction p as [|c p IH]; simpl.
  - now destruct t.
  - now rewrite Ascii.eqb_refl, IH.
Qed.

Lemma startswith_inv (p s : string) :
  startswith s p = true -> exists t, s = (p ++ t)%string.
Proof.
  revert s; induction p as [|d p IH]; intros s H.
  - now exists s.
  - destruct s as [|c s]; simpl in H; [discriminate|].
    apply andb_true_iff in H as [Hc Hs].
    apply Ascii.eqb_eq in Hc; subst d.
    destruct (IH _ Hs) as [t ->].
    now exists t.
Qed.

(** *** [split] and [join] *)

Lemma split_not_nil (s : string) (sep : ascii) : split s sep <> [].
Proof.
  destruct s as [|c s]; simpl; [discriminate|].
  destruct (Ascii.eqb c sep); [discriminate|].
  destruct (split s sep); discriminate.
Qed.

Lemma split_no_sep (s : string) (sep : ascii) :
  mem sep s = false -> split s sep = [s].
Proof.
  induction s as [|c s IH]; simpl; intros H; [reflexivity|].
  apply orb_false_iff in H as [Hc Hs].
  rewrite Ascii.eqb_sym, Hc, (IH Hs).
  reflexivity.
Qed.

Lemma split_app_sep (s t : string) (sep : ascii) :
  mem sep s = false ->
  split (s ++ String sep t)%string sep = s :: split t sep.
Proof.
  induction s as [|c s IH]; simpl; intros H.
  - now rewrite Ascii.eqb_refl.
  - apply orb_false_iff in H as [Hc Hs].
    rewrite Ascii.eqb_sym, Hc, (IH Hs).
    reflexivity.
Qed.

Lemma split_join (l : list string) :
  l <> [] ->
  Forall (fun s => mem slash s = false) l ->
  split (join "/" l) slash = l.
Proof.
  induction l as [|x l IH]; intros Hne Hall; [congruence|].
  inversion Hall as [|? ? Hx Hl]; subst.
  destruct l as [|y l].
  - simpl. now apply split_no_sep.
  - change (join "/" (x :: y :: l))
      with (x ++ String slash (join "/" (y :: l)))%string.
    rewrite (split_app_sep _ _ _ Hx), IH; [reflexivity|discriminate|assumption].
Qed.

(** *** Heads and tails of strings *)


Lemma head_char_app (s t : string) :
  s <> EmptyString -> head_char (s ++ t)%string = head_char s.
Proof. destruct s; [congruence|reflexivity]. Qed.

Lemma head_char_join (sep x : string) (l : list string) :
  x <> EmptyString -> head_char (join sep (x :: l)) = head_char x.
Proof.
  intros Hx. destruct l as [|y l]; [reflexivity|].
  change (join sep (x :: y :: l)) with (x ++ (sep ++ join sep (y :: l)))%string.
  now apply head_char_app.
Qed.

Lemma last_char_app (s t : string) :
  t <> EmptyString -> last_char (s ++ t)%string = last_char t.
Proof.
  intros Ht. induction s as [|c s IH]; [reflexivity|].
  simpl. rewrite IH.
  destruct (s ++ t)%string eqn:E; [|reflexivity].
  destruct s; simpl in E; [congruence|discriminate].
Qed.

Lemma last_char_mem (s : string) (c d : ascii) :
  last_char s = Some c -> mem d s = false -> Ascii.eqb d c = false.
Proof.
  induction s as [|a s IH]; simpl; intros Hl Hm; [discriminate|].
  apply orb_false_iff in Hm as [Ha Hs].
  destruct s as [|b s]; [now inversion Hl; subst|].
  now apply IH.
Qed.

Lemma last_char_some (s : string) :
  s <> EmptyString -> exists c, last_char s = Some c.
Proof.
  induction s as [|a s IH]; intros H; [congruence|].
  destruct s as [|b s]; [now exists a|].
  apply IH. discriminate.
Qed.

(** *** [lstrip], [rstrip], [strip] *)

Lemma lstrip_head (s chars : string) (c : ascii) :
  head_char s = Some c -> mem c chars = false -> lstrip s chars = s.
Proof.
  destruct s as [|a s]; simpl; intros H Hm; [reflexivity|].
  inversion H; subst. now rewrite Hm.
Qed.

Lemma lstrip_head_not_mem (s chars : string) (c : ascii) :
  head_char (lstrip s chars) = Some c -> mem c chars = false.
Proof.
  induction s as [|a s IH]; simpl; [discriminate|].
  destruct (mem a chars) eqn:E; [exact IH|].
  simpl. intros H. inversion H; subst. exact E.
Qed.

Lemma rstrip_last (s chars : string) (c : ascii) :
  last_char s = Some c -> mem c chars = false -> rstrip s chars = s.
Proof.
  induction s as [|a s IH]; intros Hl Hm; [reflexivity|].
  destruct s as [|b s].
  - simpl in *. inversion Hl; subst. now rewrite Hm.
  - change (last_char (String a (String b s))) with (last_char (String b s)) in Hl.
    change (rstrip (String a (String b s)) chars)
      with (match rstrip (String b s) chars with
            | EmptyString => if mem a chars then EmptyString else String a EmptyString
            | r => String a r
            end).
    now rewrite (IH Hl Hm).
Qed.

Lemma rstrip_head (s chars : string) (c : ascii) :
  head_char (rstrip s chars) = Some c -> head_char s = Some c.
Proof.
  destruct s as [|a s]; simpl; [discriminate|].
  destruct (rstrip s chars); [destruct (mem a chars)|]; simpl; congruence.
Qed.

Lemma split_head (s : string) (sep : ascii) (h : string) (t : list string) (c : ascii) :
  split s sep = h :: t -> head_char h = Some c -> head_char s = Some c.
Proof.
  destruct s as [|a s]; simpl.
  - intros H; inversion H; subst. discriminate.
  - destruct (Ascii.eqb a sep).
    + intros H; inversion H; subst. discriminate.
    + destruct (split s sep); intros H; inversion H; subst; simpl; congruence.
Qed.

Lemma list_eqb_refl (l : list string) : list_eqb l l = true.
Proof.
  induction l as [|x l IH]; [reflexivity|].
  simpl. now rewrite String.eqb_refl, IH.
Qed.

End PyFacts.

Import Py PyFacts.

Lemma _validate_parts_ok (ps : list string) :
  _validate_parts ps = Ok tt <-> valid_parts ps.
Proof.
  unfold _validate_parts, valid_parts.
  destruct ps as [|x l]; [simpl; split; [discriminate|intros [H _]; congruence]|].
  rewrite orb_false_l.
  destruct (existsb (fun part => negb (_is_valid_part part)) (x :: l)) eqn:E.
  - split; [discriminate|]. intros [_ H].
    apply existsb_exists in E as [y [Hin Hy]].
    rewrite Forall_forall in H. rewrite (H _ Hin) in Hy. discriminate.
  - split; [|reflexivity]. intros _. split; [discriminate|].
    apply Forall_forall. intros y Hin.
    destruct (_is_valid_part y) eqn:Ey; [reflexivity|].
    assert (existsb (fun part => negb (_is_valid_part part)) (x :: l) = true) as C.
    { apply existsb_exists. exists y. now rewrite Ey. }
    congruence.
Qed.

Lemma _validate_parts_raises (ps : list string) (e : exn) :
  _validate_parts ps = Raise e -> e = InvalidPathError.
Proof.
  unfold _validate_parts.
  destruct (_ || _); congruence.
Qed.

Lemma _validate_bucket_ok (b : string) :
  _validate_bucket b = Ok tt <-> fullmatch_DNS_NAME_REGEX b = true.
Proof.
  unfold _validate_bucket.
  destruct (fullmatch_DNS_NAME_REGEX b); simpl; split; congruence.
Qed.

Lemma _validate_bucket_raises (b : string) (e : exn) :
  _validate_bucket b = Raise e -> e = InvalidBucketError.
Proof.
  unfold _validate_bucket.
  destruct (negb _); congruence.
Qed.

Lemma _is_valid_part_inv (part : string) :
  _is_valid_part part = true ->
  part <> EmptyString /\ isspace part = false /\ mem slash part = false.
Proof.
  unfold _is_valid_part. intros H.
  apply andb_true_iff in H as [H Hs].
  apply andb_true_iff in H as [Ht Hw].
  apply negb_true_iff in Hs, Hw.
  repeat split; try assumption.
  intros ->. discriminate.
Qed.

Lemma valid_part_head (part : string) :
  _is_valid_part part = true ->
  exists c, head_char part = Some c /\ Ascii.eqb c slash = false.
Proof.
  intros H. apply _is_valid_part_inv in H as (Hne & _ & Hs).
  destruct part as [|c part]; [congruence|].
  exists c. split; [reflexivity|].
  simpl in Hs. apply orb_false_iff in Hs as [Hc _].
  now rewrite Ascii.eqb_sym.
Qed.

Lemma valid_part_last (part : string) :
  _is_valid_part part = true ->
  exists c, last_char part = Some c /\ Ascii.eqb c slash = false.
Proof.
  intros H. apply _is_valid_part_inv in H as (Hne & _ & Hs).
  destruct (last_char_some _ Hne) as [c Hc].
  exists c. split; [assumption|].
  rewrite Ascii.eqb_sym. exact (last_char_mem _ _ _ Hc Hs).
Qed.

Lemma valid_parts_no_slash (ps : list string) :
  valid_parts ps -> Forall (fun s => mem slash s = false) ps.
Proof.
  intros [_ H]. eapply Forall_impl; [|exact H].
  intros part Hp. now apply _is_valid_part_inv in Hp.
Qed.



(** The text [join] builds from valid parts starts with the first
    character of the first part and ends with the last one of the last. *)
Lemma join_head (ps : list string) :
  valid_parts ps ->
  exists b rest c, ps = b :: rest /\ head_char b = Some c
                   /\ head_char (join "/" ps) = Some c
                   /\ Ascii.eqb c slash = false.
Proof.
  intros [Hne Hall]. destruct ps as [|b rest]; [congruence|].
  inversion Hall as [|? ? Hb _]; subst.
  destruct (valid_part_head _ Hb) as (c & Hc & Hs).
  exists b, rest, c. repeat split; try assumption.
  rewrite head_char_join; [assumption|].
  now apply _is_valid_part_inv in Hb.
Qed.

Lemma join_last (ps : list string) :
  valid_parts ps ->
  exists c, last_char (join "/" ps) = Some c /\ Ascii.eqb c slash = false.
Proof.
  intros [Hne Hall]. induction ps as [|x l IH]; [congruence|].
  inversion Hall as [|? ? Hx Hl]; subst.
  destruct l as [|y l]; [now apply valid_part_last|].
  destruct IH as (c & Hc & Hs); [discriminate|assumption|].
  exists c. split; [|assumption].
  change (join "/" (x :: y :: l))
    with (x ++ String slash (join "/" (y :: l)))%string.
  rewrite last_char_app by discriminate.
  destruct (join "/" (y :: l)); [discriminate|exact Hc].
Qed.

Lemma mem_slash_string (c : ascii) :
  Ascii.eqb c slash = false -> mem c "/" = false.
Proof. intros H. simpl. fold slash. now rewrite H. Qed.

Lemma strip_join (ps : list string) :
  valid_parts ps -> strip (join "/" ps) "/" = join "/" ps.
Proof.
  intros H.
  destruct (join_head _ H) as (b & rest & c & _ & _ & Hc & Hs).
  destruct (join_last _ H) as (d & Hd & Hds).
  unfold strip.
  rewrite (lstrip_head _ _ _ Hc (mem_slash_string _ Hs)).
  exact (rstrip_last _ _ _ Hd (mem_slash_string _ Hds)).
Qed.

Lemma strip_split_join (ps : list string) :
  valid_parts ps -> split (strip (join "/" ps) "/") slash = ps.
Proof.
  intros H. rewrite (strip_join _ H).
  apply split_join; [apply H|now apply valid_parts_no_slash].
Qed.

Lemma join_not_slash (ps : list string) :
  valid_parts ps -> startswith (join "/" ps) "/" = false.
Proof.
  intros H.
  destruct (join_head _ H) as (b & rest & c & _ & _ & Hc & Hs).
  destruct (join "/" ps) as [|a s]; [reflexivity|].
  simpl in *. inversion Hc; subst. fold slash. now rewrite Hs.
Qed.

Lemma join_not_prefix (ps : list string) :
  valid_parts ps -> startswith (join "/" ps) _PREFIX = false.
Proof.
  intros H.
  destruct (startswith (join "/" ps) _PREFIX) eqn:E; [|reflexivity].
  apply startswith_inv in E as [t Ht].
  pose proof (split_join ps (proj1 H) (valid_parts_no_slash _ H)) as Hs.
  rewrite Ht in Hs. simpl in Hs.
  destruct H as [_ Hall]. rewrite <- Hs in Hall.
  inversion Hall as [|? ? _ Hall']; subst.
  inversion Hall' as [|? ? Hbad _]; subst.
  discriminate.
Qed.



Lemma __init___relative (ps : list string) :
  valid_parts ps ->
  __init__ (join "/" ps) = Ok (MkS3Path ps false).
Proof.
  intros H. unfold __init__.
  rewrite (join_not_slash _ H), (join_not_prefix _ H), (strip_split_join _ H).
  now rewrite (proj2 (_validate_parts_ok ps) H).
Qed.

Lemma lstrip_prefix (s : string) :
  clean_head s = true -> lstrip (_PREFIX ++ s)%string _PREFIX = s.
Proof.
  intros H.
  change (lstrip (_PREFIX ++ s)%string _PREFIX) with (lstrip s _PREFIX).
  unfold clean_head in H.
  destruct (head_char s) as [c|] eqn:Hc.
  - apply negb_true_iff in H. exact (lstrip_head _ _ _ Hc H).
  - destruct s; [reflexivity|discriminate].
Qed.

Lemma __init___absolute (b : string) (rest : list string) :
  valid_parts (b :: rest) ->
  fullmatch_DNS_NAME_REGEX b = true ->
  clean_head b = true ->
  __init__ (_PREFIX ++ join "/" (b :: rest))%string
  = Ok (MkS3Path (b :: rest) true).
Proof.
  intros H Hb Hc. unfold __init__.
  change (startswith (_PREFIX ++ join "/" (b :: rest))%string "/") with false.
  rewrite startswith_app, lstrip_prefix.
  - rewrite (strip_split_join _ H), (proj2 (_validate_parts_ok _) H).
    simpl. now rewrite (proj2 (_validate_bucket_ok b) Hb).
  - unfold clean_head in *.
    rewrite head_char_join; [assumption|].
    destruct H as [_ Hall]. inversion Hall as [|? ? Hv _]; subst.
    now apply _is_valid_part_inv in Hv.
Qed.

(** [from_parts] gives back the parts it was given when they are valid
    and, for an absolute path, the bucket is a valid name that starts with
    none of the characters of the prefix. *)
Lemma from_parts_ok (ps : list string) (a : bool) :
  valid_parts ps ->
  (a = true -> exists b rest, ps = b :: rest
                              /\ fullmatch_DNS_NAME_REGEX b = true
                              /\ clean_head b = true) ->
  from_parts ps a = Ok (MkS3Path ps a).
Proof.
  intros H Ha. unfold from_parts.
  rewrite (proj2 (_validate_parts_ok _) H). simpl.
  destruct a.
  - destruct (Ha eq_refl) as (b & rest & -> & Hb & Hc).
    simpl. rewrite (proj2 (_validate_bucket_ok b) Hb). simpl.
    now apply __init___absolute.
  - simpl. now apply __init___relative.
Qed.

Lemma strip_lstrip_clean (text : string) (c : ascii) :
  head_char (strip (lstrip text _PREFIX) "/") = Some c ->
  mem c _PREFIX = false.
Proof.
  unfold strip. intros H. apply rstrip_head in H.
  destruct (lstrip text _PREFIX) as [|a s] eqn:E; [discriminate|].
  assert (mem a _PREFIX = false) as Ha.
  { apply (lstrip_head_not_mem text). now rewrite E. }
  assert (mem a "/" = false) as Hs.
  { simpl in Ha |- *. repeat (apply orb_false_iff in Ha as [? Ha]).
    rewrite orb_false_r. assumption. }
  rewrite (lstrip_head (String a s) "/" a eq_refl Hs) in H.
  inversion H; subst. exact Ha.
Qed.

(** Whatever the constructor returns is well formed. *)
Lemma __init___wf (text : string) (p : S3Path) :
  __init__ text = Ok p -> wf p.
Proof.
  unfold __init__. destruct (startswith text "/"); [discriminate|].
  destruct (startswith text _PREFIX).
  - set (ps := split (strip (lstrip text _PREFIX) "/") slash).
    pose proof (eq_refl : ps = split (strip (lstrip text _PREFIX) "/") slash) as Eps.
    destruct (_validate_parts ps) as [[]|e] eqn:V; simpl; [|discriminate].
    destruct ps as [|b rest]; simpl; [discriminate|].
    destruct (_validate_bucket b) as [[]|e] eqn:B; simpl; [|discriminate].
    intros H; inversion H; subst; clear H. split; simpl.
    + now apply _validate_parts_ok.
    + intros _. exists b, rest. split; [reflexivity|]. split.
      * now apply _validate_bucket_ok.
      * unfold clean_head. destruct (head_char b) as [c|] eqn:Hc; [|reflexivity].
        apply negb_true_iff, (strip_lstrip_clean text).
        exact (split_head _ _ _ _ _ (eq_sym Eps) Hc).
  - set (ps := split (strip text "/") slash).
    destruct (_validate_parts ps) as [[]|e] eqn:V; simpl; [|discriminate].
    intros H; inversion H; subst; clear H. split; simpl.
    + now apply _validate_parts_ok.
    + discriminate.
Qed.

(** The constructor raises one of its two documented exceptions only. *)
Lemma __init___raises (text : string) (e : exn) :
  __init__ text = Raise e ->
  e = InvalidPathError
  \/ (e = InvalidBucketError /\ startswith text _PREFIX = true).
Proof.
  unfold __init__. destruct (startswith text "/"); [left; congruence|].
  destruct (startswith text _PREFIX).
  - set (ps := split (strip (lstrip text _PREFIX) "/") slash).
    destruct (_validate_parts ps) as [[]|e'] eqn:V; simpl.
    + destruct ps as [|b rest]; simpl.
      * apply _validate_parts_ok in V. destruct V; congruence.
      * destruct (_validate_bucket b) as [[]|e''] eqn:B; simpl; [discriminate|].
        apply _validate_bucket_raises in B. intros H; inversion H; subst. now right.
    + apply _validate_parts_raises in V. intros H; inversion H; subst. now left.
  - set (ps := split (strip text "/") slash).
    destruct (_validate_parts ps) as [[]|e'] eqn:V; simpl; [discriminate|].
    apply _validate_parts_raises in V. intros H; inversion H; subst. now left.
Qed.

(** Two texts that never parse: one that starts with a slash, which
    covers the text made of slashes only, and the empty one. *)
Lemma __init___leading_slash (text : string) :
  startswith text "/" = true -> __init__ text = Raise InvalidPathError.
Proof. intros H. unfold __init__. now rewrite H. Qed.

Lemma __init___empty : __init__ "" = Raise InvalidPathError.
Proof. reflexivity. Qed.

Lemma from_parts_wf (ps : list string) (a : bool) (p : S3Path) :
  from_parts ps a = Ok p -> wf p.
Proof.
  unfold from_parts.
  destruct (_validate_parts ps) as [[]|e]; simpl; [|discriminate].
  destruct a; simpl.
  - destruct (getitem0 ps) as [b|e]; simpl; [|discriminate].
    destruct (_validate_bucket b) as [[]|e]; simpl; [|discriminate].
    apply __init___wf.
  - apply __init___wf.
Qed.

Lemma bind_ok {A B : Type} (r : result A) (k : A -> result B) (b : B) :
  bind r k = Ok b -> exists a, r = Ok a /\ k a = Ok b.
Proof. destruct r as [a|e]; simpl; [now exists a|discriminate]. Qed.

Lemma to_absolute_wf (p q : S3Path) :
  wf p -> to_absolute p = Ok q -> wf q.
Proof.
  unfold to_absolute. destruct (is_absolute p).
  - now intros H [= <-].
  - intros _. apply from_parts_wf.
Qed.

(** [to_absolute] on an absolute path is the identity; on a relative one
    it raises when the first part is no bucket name, and keeps the parts when
    that name has a clean head. *)
Lemma to_absolute_absolute (p : S3Path) :
  is_absolute p = true -> to_absolute p = Ok p.
Proof. intros E. unfold to_absolute. now rewrite E. Qed.

Lemma to_absolute_invalid_bucket (b : string) (rest : list string) :
  valid_parts (b :: rest) ->
  fullmatch_DNS_NAME_REGEX b = false ->
  to_absolute (MkS3Path (b :: rest) false) = Raise InvalidBucketError.
Proof.
  intros H Hb. unfold to_absolute, from_parts. simpl parts. simpl is_absolute.
  cbv iota. rewrite (proj2 (_validate_parts_ok _) H).
  unfold _validate_bucket. simpl. now rewrite Hb.
Qed.

Lemma to_absolute_clean (b : string) (rest : list string) :
  valid_parts (b :: rest) ->
  fullmatch_DNS_NAME_REGEX b = true ->
  clean_head b = true ->
  to_absolute (MkS3Path (b :: rest) false) = Ok (MkS3Path (b :: rest) true).
Proof.
  intros H Hb Hc. unfold to_absolute. simpl.
  apply from_parts_ok; [assumption|].
  intros _. now exists b, rest.
Qed.

Lemma with_bucket_wf (p : S3Path) (b : string) (q : S3Path) :
  with_bucket p b = Ok q -> wf q.
Proof.
  unfold with_bucket. intros H.
  apply bind_ok in H as (_ & _ & H).
  apply bind_ok in H as (new_parts & _ & H).
  now apply from_parts_wf in H.
Qed.

Lemma parent_wf (p q : S3Path) :
  parent p = Ok (Some q) -> wf q.
Proof.
  unfold parent. destruct (_ =? 1)%nat; [discriminate|]. intros H.
  apply bind_ok in H as (q' & H & [= ->]).
  now apply from_parts_wf in H.
Qed.

Lemma __truediv___wf (p : S3Path) (other : string + S3Path) (q : S3Path) :
  __truediv__ p other = Ok q -> wf q.
Proof.
  unfold __truediv__. intros H.
  apply bind_ok in H as (o & _ & H).
  now apply from_parts_wf in H.
Qed.

Lemma produced_wf (p : S3Path) : produced p -> wf p.
Proof.
  induction 1 as [text p H | ps a p H | p q _ IH H | p b q _ _ H
                 | p q _ _ H | p s q _ _ H | p o q _ _ _ _ H].
  - exact (__init___wf _ _ H).
  - exact (from_parts_wf _ _ _ H).
  - exact (to_absolute_wf _ _ IH H).
  - exact (with_bucket_wf _ _ _ H).
  - exact (parent_wf _ _ H).
  - exact (__truediv___wf _ _ _ H).
  - exact (__truediv___wf _ _ _ H).
Qed.

Lemma wf_invariant (p : S3Path) : wf p -> invariant p.
Proof.
  intros [[Hne Hall] Ha]. split; [assumption|]. split.
  - intros part Hin. rewrite Forall_forall in Hall.
    now apply _is_valid_part_inv, Hall.
  - intros E. destruct (Ha E) as (b & rest & Hp & Hb & _).
    now exists b, rest.
Qed.

(** Every path is the constructor's: the other operations end in it. *)
Lemma wf_produced (p : S3Path) : wf p -> produced p.
Proof.
  intros [Hv Ha]. apply (produced_from_parts (parts p) (is_absolute p)).
  destruct p as [ps a]. now apply from_parts_ok.
Qed.

Lemma removelast_valid (ps : list string) :
  valid_parts ps -> 2 <= List.length ps -> valid_parts (removelast ps).
Proof.
  intros [_ Hall] Hlen. split.
  - destruct ps as [|x [|y l]]; simpl in *; try lia. discriminate.
  - clear Hlen. induction ps as [|x l IH]; [constructor|].
    inversion Hall; subst.
    destruct l as [|y l]; [constructor|].
    change (removelast (x :: y :: l)) with (x :: removelast (y :: l)).
    constructor; auto.
Qed.

Lemma removelast_cons_length (ps : list string) :
  List.length (removelast ps) = List.length ps - 1.
Proof.
  induction ps as [|x l IH]; [reflexivity|].
  destruct l as [|y l]; [reflexivity|].
  change (removelast (x :: y :: l)) with (x :: removelast (y :: l)).
  simpl List.length in *. lia.
Qed.

Lemma parent_of_wf (p : S3Path) :
  wf p -> 2 <= List.length (parts p) ->
  parent p = Ok (Some (MkS3Path (removelast (parts p)) (is_absolute p)))
  /\ wf (MkS3Path (removelast (parts p)) (is_absolute p)).
Proof.
  intros [Hv Ha] Hlen.
  assert (wf (MkS3Path (removelast (parts p)) (is_absolute p))) as Hwf.
  { split; simpl; [now apply removelast_valid|].
    intros E. destruct (Ha E) as (b & rest & Hp & Hb & Hc).
    rewrite Hp in Hlen |- *.
    destruct rest as [|y l]; [simpl in Hlen; lia|].
    now exists b, (removelast (y :: l)). }
  split; [|assumption].
  unfold parent.
  destruct (Nat.eqb_spec (List.length (parts p)) 1) as [E|_]; [lia|].
  destruct Hwf as [Hv' Ha'].
  now rewrite (from_parts_ok (removelast (parts p)) (is_absolute p) Hv' Ha').
Qed.

Lemma parent_iter_wf (k : nat) :
  forall p, wf p -> k <= List.length (parts p) - 1 ->
  exists q, parent_iter k p = Ok (Some q)
            /\ List.length (parts q) = List.length (parts p) - k
            /\ is_absolute q = is_absolute p.
Proof.
  induction k as [|k IH]; intros p Hwf Hk.
  - exists p. simpl. repeat split. lia.
  - destruct (parent_of_wf p Hwf) as [Hp Hwf']; [lia|].
    destruct (IH _ Hwf') as (q & Hq & Hlen & Habs).
    { simpl. rewrite removelast_cons_length. lia. }
    exists q. simpl in *. rewrite Hp. simpl.
    rewrite removelast_cons_length in Hlen.
    repeat split; [assumption|lia|assumption].
Qed.

Lemma lstrip_slashes (k : nat) (s : string) :
  lstrip (slashes k ++ s)%string "/" = lstrip s "/".
Proof. induction k as [|k IH]; [reflexivity|exact IH]. Qed.


(** ** The cases of [tests/test_paths.py], evaluated *)

Example test_parts_are_parsed_correctly :
  map __init__ ["s3://bucket"; "s3://bucket/"; "s3://bucket/folder/file.txt";
                "folder/"; "folder/file.txt"]
  = [Ok (MkS3Path ["bucket"] true); Ok (MkS3Path ["bucket"] true);
     Ok (MkS3Path ["bucket"; "folder"; "file.txt"] true);
     Ok (MkS3Path ["folder"] false); Ok (MkS3Path ["folder"; "file.txt"] false)].
Proof. reflexivity. Qed.

Example test_invalid_path_raises :
  map __init__ ["s3://bucket^with_invalid*name/folder/file.txt";
                "/folder/file.txt"; "s3://bucket/ /file.txt"]
  = [Raise InvalidBucketError; Raise InvalidPathError; Raise InvalidPathError].
Proof. reflexivity. Qed.

Example test_invalid_parts_raise :
  map (fun ps => from_parts ps false)
      [[""]; ["/"]; ["///"]; [" "]; ["folder"; ""]; ["folder/"]; ["/folder"]]
  = repeat (Raise InvalidPathError) 7.
Proof. reflexivity. Qed.

Example test_file_txt_to_absolute_raises :
  to_absolute (MkS3Path ["file.txt"] false) = Raise InvalidBucketError.
Proof. reflexivity. Qed.

Example test_with_bucket :
  with_bucket (MkS3Path ["some"; "relative"; "path"] false) "bucket"
  = Ok (MkS3Path ["bucket"; "some"; "relative"; "path"] true)
  /\ with_bucket (MkS3Path ["bucket"; "some"; "file.txt"] true) "new-bucket"
     = Ok (MkS3Path ["new-bucket"; "some"; "file.txt"] true)
  /\ with_bucket (MkS3Path ["some"] false) "not$a%valid&bucket*name!"
     = Raise InvalidBucketError.
Proof. repeat split. Qed.

Example test_name_of_bucket_only :
  name (MkS3Path ["bucket"] true) = Ok "bucket"
  /\ name (MkS3Path ["some"; "relative"; "path"] false) = Ok "path".
Proof. split; reflexivity. Qed.

Example test_adding_extra_str_path_parts :
  map (fun s => __truediv__ (MkS3Path ["bucket"; "folder"] true) (inl s))
      ["file.txt"; "/file.txt"; "folder2/"; "/folder2/"; "/folder2/folder3"]
  = [Ok (MkS3Path ["bucket"; "folder"; "file.txt"] true);
     Ok (MkS3Path ["bucket"; "folder"; "file.txt"] true);
     Ok (MkS3Path ["bucket"; "folder"; "folder2"] true);
     Ok (MkS3Path ["bucket"; "folder"; "folder2"] true);
     Ok (MkS3Path ["bucket"; "folder"; "folder2"; "folder3"] true)].
Proof. reflexivity. Qed.

Example test_bucket_names :
  map fullmatch_DNS_NAME_REGEX ["12345"; "-abc"; "abc-"; "a^b"; "my-bucket-1"]
  = [false; false; false; false; true].
Proof. reflexivity. Qed.

(** ** The claims *)

(** C1.  [from_parts] does not give back the parts it was given when the
    path is absolute and the bucket starts with a character of the prefix:
    the parts [some], [relative], [path] pass both validations, and the path
    built from them has the bucket [ome]. *)
Theorem from_parts_absolute_overstrips :
  _validate_parts ["some"; "relative"; "path"] = Ok tt
  /\ _validate_bucket "some" = Ok tt
  /\ from_parts ["some"; "relative"; "path"] true
     = Ok (MkS3Path ["ome"; "relative"; "path"] true).
Proof. repeat split. Qed.

(** C2.  The relative path parsed from [some/relative/path] converts to an
    absolute path whose bucket is [ome], not [some]: the parts of the result
    differ from those of the receiver. *)
Theorem to_absolute_overstrips :
  __init__ "some/relative/path" = Ok (MkS3Path ["some"; "relative"; "path"] false)
  /\ to_absolute (MkS3Path ["some"; "relative"; "path"] false)
     = Ok (MkS3Path ["ome"; "relative"; "path"] true)
  /\ bucket (MkS3Path ["ome"; "relative"; "path"] true) = Ok "ome".
Proof. repeat split. Qed.

(** A relative path whose only part is made of characters of the prefix
    converts to nothing at all: the text rebuilt for it is stripped down to
    the empty string. *)
Example to_absolute_s3_raises :
  __init__ "s3" = Ok (MkS3Path ["s3"] false)
  /\ _validate_bucket "s3" = Ok tt
  /\ to_absolute (MkS3Path ["s3"] false) = Raise InvalidPathError.
Proof. repeat split. Qed.

(** C3, as stated, fails: a string that starts with two slashes joins, though
    what is left of it after one slash is removed does not parse. *)
Lemma truediv_two_leading_slashes :
  startswith "//file.txt" "//" = true
  /\ __init__ "/file.txt" = Raise InvalidPathError
  /\ __truediv__ (MkS3Path ["bucket"; "folder"] true) (inl "//file.txt")
     = Ok (MkS3Path ["bucket"; "folder"; "file.txt"] true).
Proof. repeat split. Qed.

(** C3, amended.  The join [p / s] removes every leading slash of [s],
    however many there are, and parses what is left: when that parses to a
    path [q], the join returns the path of the parts of [p] followed by those
    of [q], with the absoluteness of [p]; when it does not parse, the join
    raises what the constructor raises. *)
Theorem truediv_strips_all_leading_slashes (p : S3Path) (s : string) (k : nat) :
  produced p ->
  (forall q, __init__ (lstrip s "/") = Ok q ->
     __truediv__ p (inl (slashes k ++ s)%string)
     = Ok (MkS3Path (parts p ++ parts q) (is_absolute p)))
  /\ (forall e, __init__ (lstrip s "/") = Raise e ->
       __truediv__ p (inl (slashes k ++ s)%string) = Raise e).
Proof.
  intros Hp. unfold __truediv__. rewrite lstrip_slashes. split.
  - intros q Hq. rewrite Hq. simpl.
    apply produced_wf in Hp as [[Hne Hall] Ha].
    apply __init___wf in Hq as [[_ Hall'] _].
    apply from_parts_ok.
    + split; [|now apply Forall_app].
      destruct (parts p); [congruence|discriminate].
    + intros E. destruct (Ha E) as (b & rest & -> & Hb & Hc).
      now exists b, (rest ++ parts q).
  - intros e He. now rewrite He.
Qed.

Lemma truediv_strips_all_leading_slashes_witness :
  produced (MkS3Path ["bucket"; "folder"] true)
  /\ __truediv__ (MkS3Path ["bucket"; "folder"] true) (inl "///folder2/file.txt")
     = Ok (MkS3Path ["bucket"; "folder"; "folder2"; "file.txt"] true).
Proof.
  assert (produced (MkS3Path ["bucket"; "folder"] true)) as H.
  { exact (produced_init "s3://bucket/folder" _ eq_refl). }
  split; [exact H|].
  exact (proj1 (truediv_strips_all_leading_slashes _ "folder2/file.txt" 3 H)
           (MkS3Path ["folder2"; "file.txt"] false) eq_refl).
Defined.

(** C4.  Every path an operation of the class produces has at least one
    part, no part of it is empty, all whitespace or holds a slash, and the
    first part of an absolute path matches the bucket pattern. *)
Theorem produced_invariant (p : S3Path) : produced p -> invariant p.
Proof. intros H. now apply wf_invariant, produced_wf. Qed.

Lemma produced_invariant_witness :
  produced (MkS3Path ["bucket"; "folder"] true)
  /\ invariant (MkS3Path ["bucket"; "folder"] true).
Proof.
  assert (produced (MkS3Path ["bucket"; "folder"] true)) as H.
  { exact (produced_init "s3://bucket/folder/" _ eq_refl). }
  split; [exact H|exact (produced_invariant _ H)].
Defined.

(** C5.  On a relative path [bucket] and [key] raise [UnknownBucketError];
    on an absolute path [bucket] returns the first part and [key] the other
    parts joined by slashes. *)
Theorem bucket_key_spec (p : S3Path) :
  produced p ->
  (is_absolute p = false ->
   bucket p = Raise UnknownBucketError /\ key p = Raise UnknownBucketError)
  /\ (is_absolute p = true ->
      exists b rest, parts p = b :: rest
                     /\ bucket p = Ok b
                     /\ key p = Ok (join "/" rest)).
Proof.
  intros H. apply produced_wf in H as [[Hne _] _].
  unfold bucket, key. split; intros E; rewrite E; simpl.
  - now split.
  - destruct (parts p) as [|b rest]; [congruence|].
    now exists b, rest.
Qed.

Lemma bucket_key_spec_witness :
  produced (MkS3Path ["bucket"; "folder"; "file.txt"] true)
  /\ bucket (MkS3Path ["bucket"; "folder"; "file.txt"] true) = Ok "bucket"
  /\ key (MkS3Path ["bucket"; "folder"; "file.txt"] true) = Ok "folder/file.txt".
Proof.
  assert (produced (MkS3Path ["bucket"; "folder"; "file.txt"] true)) as H.
  { exact (produced_init "s3://bucket/folder/file.txt" _ eq_refl). }
  split; [exact H|].
  destruct (proj2 (bucket_key_spec _ H) eq_refl) as (b & rest & Hp & Hb & Hk).
  injection Hp as <- <-. now split.
Defined.

(** C6.  The parent of a path of one part is [None]; the parent of a path
    of [N >= 2] parts is the path of the same absoluteness without the last
    part; and [N - 1] applications of [parent], no fewer, lead to a path of
    one part. *)
Theorem parent_spec (p : S3Path) :
  produced p ->
  (List.length (parts p) = 1 -> parent p = Ok None)
  /\ (2 <= List.length (parts p) ->
      parent p = Ok (Some (MkS3Path (removelast (parts p)) (is_absolute p))))
  /\ (exists q, parent_iter (List.length (parts p) - 1) p = Ok (Some q)
                /\ List.length (parts q) = 1)
  /\ (forall k, k < List.length (parts p) - 1 ->
      exists q, parent_iter k p = Ok (Some q) /\ 1 < List.length (parts q)).
Proof.
  intros H. apply produced_wf in H.
  assert (1 <= List.length (parts p)) as Hlen.
  { destruct H as [[Hne _] _]. destruct (parts p); [congruence|simpl; lia]. }
  repeat split.
  - intros E. unfold parent. now rewrite E.
  - intros E. now apply parent_of_wf.
  - destruct (parent_iter_wf (List.length (parts p) - 1) p H) as (q & Hq & Hl & _);
      [lia|].
    exists q. split; [assumption|lia].
  - intros k Hk.
    destruct (parent_iter_wf k p H) as (q & Hq & Hl & _); [lia|].
    exists q. split; [assumption|lia].
Qed.

Lemma parent_spec_witness :
  produced (MkS3Path ["bucket"; "folder"; "file.txt"] true)
  /\ parent (MkS3Path ["bucket"; "folder"; "file.txt"] true)
     = Ok (Some (MkS3Path ["bucket"; "folder"] true)).
Proof.
  assert (produced (MkS3Path ["bucket"; "folder"; "file.txt"] true)) as H.
  { exact (produced_init "s3://bucket/folder/file.txt" _ eq_refl). }
  split; [exact H|].
  apply (proj1 (proj2 (parent_spec _ H))). simpl. lia.
Defined.

(** C7.  Joining an absolute path onto a path raises [ValueError]. *)
Theorem truediv_absolute_raises (p q : S3Path) :
  is_absolute q = true -> __truediv__ p (inr q) = Raise ValueError.
Proof. intros E. unfold __truediv__. now rewrite E. Qed.

Lemma truediv_absolute_raises_witness :
  is_absolute (MkS3Path ["bucket"; "some"] true) = true
  /\ __truediv__ (MkS3Path ["folder"] false) (inr (MkS3Path ["bucket"; "some"] true))
     = Raise ValueError.
Proof.
  split; [reflexivity|].
  apply truediv_absolute_raises. reflexivity.
Defined.

(** C8.  A text that parses, rendered and parsed again, gives the path of
    the first parse, and [==] finds the two equal. *)
Theorem parse_repr_parse (text : string) (p : S3Path) :
  __init__ text = Ok p ->
  __init__ (__repr__ p) = Ok p
  /\ (q <- __init__ (__repr__ p) ;; __eq__ q (inr p)) = Ok true.
Proof.
  intros H.
  assert (__init__ (__repr__ p) = Ok p) as R.
  { apply __init___wf in H as [Hv Ha].
    destruct p as [ps [|]]; unfold __repr__; simpl in *.
    - destruct (Ha eq_refl) as (b & rest & -> & Hb & Hc).
      now apply __init___absolute.
    - now apply __init___relative. }
  split; [exact R|].
  rewrite R. unfold __eq__. simpl.
  now rewrite list_eqb_refl, eqb_reflx.
Qed.

Lemma parse_repr_parse_witness :
  __init__ "s3://bucket/folder/" = Ok (MkS3Path ["bucket"; "folder"] true)
  /\ __init__ (__repr__ (MkS3Path ["bucket"; "folder"] true))
     = Ok (MkS3Path ["bucket"; "folder"] true).
Proof.
  split; [reflexivity|].
  exact (proj1 (parse_repr_parse "s3://bucket/folder/" _ eq_refl)).
Defined.

(** C9.  When a string, its leading slashes removed, parses as an absolute
    path, joining it onto a path [p] returns the path of the parts of [p]
    followed by the parts parsed, with the absoluteness of [p]. *)
Theorem truediv_absolute_string (p : S3Path) (s : string) (q : S3Path) :
  produced p ->
  __init__ (lstrip s "/") = Ok q ->
  is_absolute q = true ->
  __truediv__ p (inl s) = Ok (MkS3Path (parts p ++ parts q) (is_absolute p)).
Proof.
  intros Hp Hq _. unfold __truediv__. rewrite Hq. simpl.
  apply produced_wf in Hp as [[Hne Hall] Ha].
  apply __init___wf in Hq as [[_ Hall'] _].
  apply from_parts_ok.
  - split; [|now apply Forall_app].
    destruct (parts p); [congruence|discriminate].
  - intros E. destruct (Ha E) as (b & rest & -> & Hb & Hc).
    now exists b, (rest ++ parts q).
Qed.

Lemma truediv_absolute_string_witness :
  produced (MkS3Path ["bucket"; "folder"] true)
  /\ __init__ (lstrip "s3://other/x" "/") = Ok (MkS3Path ["other"; "x"] true)
  /\ __truediv__ (MkS3Path ["bucket"; "folder"] true) (inl "s3://other/x")
     = Ok (MkS3Path ["bucket"; "folder"; "other"; "x"] true).
Proof.
  assert (produced (MkS3Path ["bucket"; "folder"] true)) as H.
  { exact (produced_init "s3://bucket/folder" _ eq_refl). }
  split; [exact H|]. split; [reflexivity|].
  exact (truediv_absolute_string _ "s3://other/x" (MkS3Path ["other"; "x"] true)
           H eq_refl eq_refl).
Defined.

(** C10.  Comparing a path with a string that does not parse raises what
    the constructor raises: [InvalidPathError], or [InvalidBucketError] for
    a string that starts with the prefix. *)
Theorem eq_unparsable_string_raises (p : S3Path) (s : string) (e : exn) :
  __init__ s = Raise e ->
  __eq__ p (inl s) = Raise e
  /\ (e = InvalidPathError
      \/ (e = InvalidBucketError /\ startswith s _PREFIX = true)).
Proof.
  intros H. split.
  - unfold __eq__. now rewrite H.
  - now apply __init___raises.
Qed.

Lemma eq_unparsable_string_raises_witness :
  __init__ "/folder" = Raise InvalidPathError
  /\ __eq__ (MkS3Path ["folder"] false) (inl "/folder") = Raise InvalidPathError.
Proof.
  split; [reflexivity|].
  exact (proj1 (eq_unparsable_string_raises _ "/folder" _ eq_refl)).
Defined.

(** ** Further properties of the class *)

(** *** More on the string methods *)

Lemma startswith_nil (s : string) : startswith s EmptyString = true.
Proof. now destruct s. Qed.

Lemma startswith_app_l (s t p : string) :
  startswith s p = true -> startswith (s ++ t)%string p = true.
Proof.
  intros H. apply startswith_inv in H as [r ->].
  revert r; induction p as [|d p IH]; intros r; [apply startswith_nil|].
  simpl. now rewrite Ascii.eqb_refl, IH.
Qed.

(** When [s ++ t] starts with [p] and [s] does not, [s] is a proper prefix
    of [p] and [t] starts with what is left of [p]. *)
Lemma startswith_app_inv (p s t : string) :
  startswith (s ++ t)%string p = true ->
  startswith s p = true
  \/ exists p2, p = (s ++ p2)%string /\ p2 <> EmptyString /\ startswith t p2 = true.
Proof.
  revert s; induction p as [|d p IH]; intros s H; [left; apply startswith_nil|].
  destruct s as [|c s].
  - right. exists (String d p). repeat split; [discriminate|exact H].
  - simpl in H |- *. apply andb_true_iff in H as [Hc Hs].
    rewrite Hc. apply Ascii.eqb_eq in Hc; subst d.
    destruct (IH _ Hs) as [Hl|(p2 & -> & Hne & Ht)]; [now left|].
    right. now exists p2.
Qed.

Lemma prefix_plus_slash (text : string) :
  startswith text _PREFIX = false ->
  startswith (text ++ "/")%string _PREFIX = true ->
  text = "s3:/".
Proof.
  intros Hf Ht.
  destruct (startswith_app_inv _ _ _ Ht) as [Hl|(p2 & Hp & Hne & Hs)]; [congruence|].
  destruct p2 as [|x [|y r]]; [congruence| |].
  - cbn [startswith] in Hs. rewrite andb_true_r in Hs.
    apply Ascii.eqb_eq in Hs; subst x.
    unfold _PREFIX in Hp.
    repeat (destruct text as [|? text]; simpl in Hp; [discriminate|];
            injection Hp as <- Hp).
    destruct text as [|? text]; [reflexivity|].
    simpl in Hp. injection Hp as _ Hp. destruct text; discriminate.
  - cbn [startswith] in Hs. now rewrite andb_false_r in Hs.
Qed.

Lemma rstrip_app_char (s chars : string) (c : ascii) :
  mem c chars = true ->
  rstrip (s ++ String c EmptyString)%string chars = rstrip s chars.
Proof.
  intros Hc. induction s as [|a s IH]; simpl.
  - now rewrite Hc.
  - now rewrite IH.
Qed.

Lemma lstrip_app_char (s chars : string) (c : ascii) :
  mem c chars = true ->
  lstrip (s ++ String c EmptyString)%string chars
  = match lstrip s chars with
    | EmptyString => EmptyString
    | r => (r ++ String c EmptyString)%string
    end.
Proof.
  intros Hc. induction s as [|a s IH]; simpl.
  - now rewrite Hc.
  - destruct (mem a chars); [exact IH|reflexivity].
Qed.

Lemma strip_app_char (s chars : string) (c : ascii) :
  mem c chars = true ->
  strip (s ++ String c EmptyString)%string chars = strip s chars.
Proof.
  intros Hc. unfold strip. rewrite (lstrip_app_char _ _ _ Hc).
  destruct (lstrip s chars) as [|a r] eqn:E; [reflexivity|].
  now apply rstrip_app_char.
Qed.

Lemma strip_no_slash (s : string) :
  mem slash s = false -> strip s "/" = s.
Proof.
  intros H. destruct s as [|c s]; [reflexivity|].
  assert (mem c "/" = false) as Hc.
  { simpl in H |- *. apply orb_false_iff in H as [H _].
    now rewrite Ascii.eqb_sym, orb_false_r. }
  unfold strip. rewrite (lstrip_head (String c s) "/" c eq_refl Hc).
  destruct (last_char_some (String c s)) as [d Hd]; [discriminate|].
  apply (rstrip_last _ _ _ Hd), mem_slash_string.
  rewrite Ascii.eqb_sym. exact (last_char_mem _ _ _ Hd H).
Qed.

Lemma strip_empty_slash (s : string) :
  strip s "/" = EmptyString -> s <> EmptyString -> mem slash s = true.
Proof.
  intros H Hne. destruct s as [|c s]; [congruence|].
  cbn [mem]. destruct (Ascii.eqb slash c) eqn:E; [reflexivity|exfalso].
  assert (mem c "/" = false) as Hc.
  { apply mem_slash_string. now rewrite Ascii.eqb_sym. }
  unfold strip in H. rewrite (lstrip_head (String c s) "/" c eq_refl Hc) in H.
  cbn [rstrip] in H. rewrite Hc in H.
  destruct (rstrip s "/"); discriminate.
Qed.

Lemma getitem_last_app (l : list string) :
  l <> [] -> exists n, getitem_last l = Ok n /\ l = removelast l ++ [n].
Proof.
  induction l as [|x l IH]; intros H; [congruence|].
  destruct l as [|y l]; [now exists x|].
  destruct IH as (n & Hn & Hl); [discriminate|].
  exists n. split; [exact Hn|].
  change (removelast (x :: y :: l)) with (x :: removelast (y :: l)).
  rewrite <- app_comm_cons. now f_equal.
Qed.

(** A character of a bucket name is neither a slash nor whitespace. *)
Lemma is_dns_char_plain (c : ascii) :
  is_dns_char c = true -> Ascii.eqb slash c = false /\ isspace_char c = false.
Proof.
  destruct c as [[] [] [] [] [] [] [] []]; vm_compute; intros H;
    first [discriminate | split; reflexivity].
Qed.

Lemma all_dns_chars_plain (s : string) :
  all_chars is_dns_char s = true ->
  mem slash s = false /\ (s <> EmptyString -> isspace s = false).
Proof.
  induction s as [|c s IH]; cbn [all_chars mem]; intros H; [split; congruence|].
  apply andb_true_iff in H as [Hc Hs].
  destruct (is_dns_char_plain _ Hc) as [Hsl Hsp].
  destruct (IH Hs) as [Hm _].
  split.
  - now rewrite Hsl, Hm.
  - intros _. unfold isspace. cbn [truthy all_chars]. now rewrite Hsp.
Qed.

(** *** More on the validators and the constructor *)

Lemma _validate_parts_invalid (ps : list string) :
  ~ valid_parts ps -> _validate_parts ps = Raise InvalidPathError.
Proof.
  intros H. destruct (_validate_parts ps) as [[]|e] eqn:V.
  - now apply _validate_parts_ok in V.
  - now rewrite (_validate_parts_raises _ _ V).
Qed.

Lemma valid_parts_dec (ps : list string) : valid_parts ps \/ ~ valid_parts ps.
Proof.
  destruct (_validate_parts ps) as [[]|e] eqn:V.
  - left. now apply _validate_parts_ok.
  - right. intros H. apply _validate_parts_ok in H. congruence.
Qed.

Lemma valid_parts_cons (b : string) (rest : list string) :
  valid_parts (b :: rest) <->
  _is_valid_part b = true /\ Forall (fun part => _is_valid_part part = true) rest.
Proof.
  unfold valid_parts. split.
  - intros [_ H]. now inversion H.
  - intros [Hb Hr]. split; [discriminate|now constructor].
Qed.

Lemma __init___is_absolute (text : string) (p : S3Path) :
  __init__ text = Ok p -> is_absolute p = startswith text _PREFIX.
Proof.
  unfold __init__. destruct (startswith text "/"); [discriminate|].
  destruct (startswith text _PREFIX); intros H;
    apply bind_ok in H as (_ & _ & H); apply bind_ok in H as (_ & _ & H);
    now injection H as <-.
Qed.

Lemma from_parts_is_absolute_aux (ps : list string) (a : bool) (p : S3Path) :
  from_parts ps a = Ok p -> is_absolute p = a.
Proof.
  unfold from_parts. intros H.
  apply bind_ok in H as ([] & V & H). apply _validate_parts_ok in V.
  apply bind_ok in H as (path & Hp & H).
  apply __init___is_absolute in H. rewrite H. destruct a.
  - apply bind_ok in Hp as (b & _ & Hp). apply bind_ok in Hp as (_ & _ & Hp).
    injection Hp as <-. apply startswith_app.
  - injection Hp as <-. now apply join_not_prefix.
Qed.

Lemma from_parts_raises_aux (ps : list string) (a : bool) (e : exn) :
  from_parts ps a = Raise e ->
  e = InvalidPathError \/ (e = InvalidBucketError /\ a = true).
Proof.
  unfold from_parts.
  destruct (valid_parts_dec ps) as [V|V].
  - rewrite (proj2 (_validate_parts_ok _) V). simpl. destruct a.
    + destruct ps as [|b rest]; [destruct V; congruence|]. simpl.
      destruct (_validate_bucket b) as [[]|e'] eqn:B; simpl.
      * intros H. apply __init___raises in H as [->|[-> _]]; auto.
      * apply _validate_bucket_raises in B. intros [= <-]. auto.
    + simpl. intros H. apply __init___raises in H as [->|[_ H]]; [auto|].
      rewrite (join_not_prefix _ V) in H. discriminate.
  - rewrite (_validate_parts_invalid _ V). simpl. intros [= <-]. auto.
Qed.

(** A valid, non-empty bucket name is a valid part. *)
Lemma bucket_is_valid_part (b : string) :
  fullmatch_DNS_NAME_REGEX b = true -> b <> EmptyString -> _is_valid_part b = true.
Proof.
  unfold fullmatch_DNS_NAME_REGEX. intros H Hne.
  apply andb_true_iff in H as [H _].
  apply andb_true_iff in H as [_ H].
  apply andb_true_iff in H as [H _].
  destruct (all_dns_chars_plain _ H) as [Hs Hw].
  unfold _is_valid_part. rewrite Hs, (Hw Hne).
  destruct b; [congruence|reflexivity].
Qed.

Lemma bucket_no_slash (b : string) :
  fullmatch_DNS_NAME_REGEX b = true -> mem slash b = false.
Proof.
  unfold fullmatch_DNS_NAME_REGEX. intros H.
  apply andb_true_iff in H as [H _].
  apply andb_true_iff in H as [_ H].
  apply andb_true_iff in H as [H _].
  now apply all_dns_chars_plain.
Qed.

Lemma __init___trailing_slash (text : string) (p : S3Path) :
  __init__ text = Ok p -> text <> "s3:/" ->
  __init__ (text ++ "/")%string = Ok p.
Proof.
  intros H Hne. unfold __init__ in *.
  destruct (startswith text "/") eqn:Es; [discriminate|].
  assert (startswith (text ++ "/")%string "/" = false) as ->.
  { destruct text as [|c text]; [discriminate H|].
    cbn [append startswith] in Es |- *.
    now rewrite startswith_nil in Es |- *. }
  destruct (startswith text _PREFIX) eqn:Ep.
  - rewrite (startswith_app_l _ "/" _ Ep).
    rewrite (lstrip_app_char text _PREFIX "/"%char eq_refl).
    destruct (lstrip text _PREFIX) as [|a r] eqn:El; [discriminate H|].
    now rewrite (strip_app_char (String a r) "/" "/"%char eq_refl).
  - destruct (startswith (text ++ "/")%string _PREFIX) eqn:Ep'.
    + now apply prefix_plus_slash in Ep'.
    + now rewrite (strip_app_char text "/" "/"%char eq_refl).
Qed.

(** Among the characters of a bucket name, [lstrip(_PREFIX)] removes [s]
    and [3] only. *)
Lemma is_dns_char_prefix (c : ascii) :
  is_dns_char c = true ->
  mem c _PREFIX = Ascii.eqb c "s" || Ascii.eqb c "3".
Proof.
  destruct c as [[] [] [] [] [] [] [] []]; vm_compute; intros H;
    first [discriminate | reflexivity].
Qed.

Lemma clean_head_s3 (b : string) :
  fullmatch_DNS_NAME_REGEX b = true ->
  clean_head b = true <-> startswith b "s" = false /\ startswith b "3" = false.
Proof.
  intros H. destruct b as [|c b]; [now split|].
  unfold fullmatch_DNS_NAME_REGEX in H.
  apply andb_true_iff in H as [H _].
  apply andb_true_iff in H as [_ H].
  apply andb_true_iff in H as [H _].
  cbn [all_chars] in H. apply andb_true_iff in H as [H _].
  unfold clean_head. cbn [head_char startswith].
  rewrite (is_dns_char_prefix _ H), startswith_nil, !andb_true_r.
  rewrite negb_true_iff, orb_false_iff. reflexivity.
Qed.

Lemma wf_parts_cons (p : S3Path) :
  wf p -> exists b rest, parts p = b :: rest.
Proof.
  intros [[Hne _] _]. destruct (parts p) as [|b rest]; [congruence|].
  now exists b, rest.
Qed.

(** *** [from_parts] *)

(** X1.  For a relative path [from_parts] is exact: valid parts give the
    path of these parts, anything else raises [InvalidPathError]. *)
Theorem from_parts_relative (ps : list string) :
  (valid_parts ps -> from_parts ps false = Ok (MkS3Path ps false))
  /\ (~ valid_parts ps -> from_parts ps false = Raise InvalidPathError).
Proof.
  split; intros H.
  - now apply from_parts_ok.
  - unfold from_parts. now rewrite (_validate_parts_invalid _ H).
Qed.

Lemma from_parts_relative_witness :
  valid_parts ["folder"; "s3:"; "file.txt"]
  /\ from_parts ["folder"; "s3:"; "file.txt"] false
     = Ok (MkS3Path ["folder"; "s3:"; "file.txt"] false).
Proof.
  assert (valid_parts ["folder"; "s3:"; "file.txt"]) as H.
  { apply _validate_parts_ok. reflexivity. }
  split; [exact H|exact (proj1 (from_parts_relative _) H)].
Defined.

(** X2.  For an absolute path [from_parts] keeps the parts when the bucket
    is a valid name that starts with neither [s] nor [3]. *)
Theorem from_parts_absolute (b : string) (rest : list string) :
  valid_parts (b :: rest) ->
  fullmatch_DNS_NAME_REGEX b = true ->
  startswith b "s" = false ->
  startswith b "3" = false ->
  from_parts (b :: rest) true = Ok (MkS3Path (b :: rest) true).
Proof.
  intros H Hb Hs H3. apply from_parts_ok; [assumption|].
  intros _. exists b, rest. repeat split; [assumption|].
  now apply clean_head_s3.
Qed.

Lemma from_parts_absolute_witness :
  from_parts ["bucket"; "some"; "path"] true
  = Ok (MkS3Path ["bucket"; "some"; "path"] true).
Proof.
  apply from_parts_absolute; [apply _validate_parts_ok| | |]; reflexivity.
Defined.

(** X3.  The path [from_parts] returns has the absoluteness asked for. *)
Theorem from_parts_is_absolute (ps : list string) (a : bool) (p : S3Path) :
  from_parts ps a = Ok p -> is_absolute p = a.
Proof. apply from_parts_is_absolute_aux. Qed.

Lemma from_parts_is_absolute_witness :
  from_parts ["some"; "path"] true = Ok (MkS3Path ["ome"; "path"] true)
  /\ is_absolute (MkS3Path ["ome"; "path"] true) = true.
Proof.
  split; [reflexivity|].
  exact (from_parts_is_absolute ["some"; "path"] true _ eq_refl).
Defined.

(** X4.  [from_parts] raises [InvalidPathError] or, for an absolute path
    only, [InvalidBucketError]; it never raises [IndexError]. *)
Theorem from_parts_raises (ps : list string) (a : bool) (e : exn) :
  from_parts ps a = Raise e ->
  e = InvalidPathError \/ (e = InvalidBucketError /\ a = true).
Proof. apply from_parts_raises_aux. Qed.

Lemma from_parts_raises_witness :
  from_parts ["file.txt"] true = Raise InvalidBucketError
  /\ (InvalidBucketError = InvalidPathError
      \/ (InvalidBucketError = InvalidBucketError /\ true = true)).
Proof.
  split; [reflexivity|].
  exact (from_parts_raises ["file.txt"] true InvalidBucketError eq_refl).
Defined.

(** *** The constructor and [__repr__] *)

(** X5.  A slash added at the end of a text that parses changes nothing,
    unless the text is [s3:/], which the slash turns into the bare prefix. *)
Theorem parse_trailing_slash (text : string) (p : S3Path) :
  __init__ text = Ok p ->
  text <> "s3:/" ->
  __init__ (text ++ "/")%string = Ok p.
Proof. apply __init___trailing_slash. Qed.

Lemma parse_trailing_slash_witness :
  __init__ "s3://bucket/folder/" = Ok (MkS3Path ["bucket"; "folder"] true).
Proof.
  apply (parse_trailing_slash "s3://bucket/folder"); [reflexivity|discriminate].
Defined.

Example parse_s3_colon_slash :
  __init__ "s3:/" = Ok (MkS3Path ["s3:"] false)
  /\ __init__ "s3://" = Raise InvalidPathError.
Proof. split; reflexivity. Qed.

(** X6.  The text of a path never ends with a slash, and is not empty. *)
Theorem repr_no_trailing_slash (p : S3Path) :
  produced p ->
  exists c, last_char (__repr__ p) = Some c /\ c <> "/"%char.
Proof.
  intros H. apply produced_wf in H as [Hv _].
  destruct (join_last _ Hv) as (c & Hc & Hs).
  exists c. split.
  - unfold __repr__. destruct (is_absolute p); [|exact Hc].
    rewrite last_char_app; [exact Hc|].
    intros E. rewrite E in Hc. discriminate.
  - intros ->. discriminate.
Qed.

Lemma repr_no_trailing_slash_witness :
  produced (MkS3Path ["bucket"; "folder"] true)
  /\ exists c, last_char (__repr__ (MkS3Path ["bucket"; "folder"] true)) = Some c
               /\ c <> "/"%char.
Proof.
  assert (produced (MkS3Path ["bucket"; "folder"] true)) as H.
  { exact (produced_init "s3://bucket/folder/" _ eq_refl). }
  split; [exact H|exact (repr_no_trailing_slash _ H)].
Defined.

(** *** [__eq__] *)

(** X7.  A path is equal to its own text. *)
Theorem eq_repr (p : S3Path) :
  produced p -> __eq__ p (inl (__repr__ p)) = Ok true.
Proof.
  intros H. apply produced_wf in H as [Hv Ha].
  assert (__init__ (__repr__ p) = Ok p) as R.
  { destruct p as [ps [|]]; unfold __repr__; simpl in *.
    - destruct (Ha eq_refl) as (b & rest & -> & Hb & Hc).
      now apply __init___absolute.
    - now apply __init___relative. }
  unfold __eq__. rewrite R. simpl.
  now rewrite list_eqb_refl, eqb_reflx.
Qed.

Lemma eq_repr_witness :
  produced (MkS3Path ["folder"; "file.txt"] false)
  /\ __eq__ (MkS3Path ["folder"; "file.txt"] false) (inl "folder/file.txt") = Ok true.
Proof.
  assert (produced (MkS3Path ["folder"; "file.txt"] false)) as H.
  { exact (produced_init "folder/file.txt" _ eq_refl). }
  split; [exact H|exact (eq_repr _ H)].
Defined.

(** *** [name] and [parent] *)

(** X9.  [name] returns the last part and does not raise. *)
Theorem name_spec (p : S3Path) :
  produced p ->
  exists n, name p = Ok n /\ parts p = removelast (parts p) ++ [n].
Proof.
  intros H. apply produced_wf in H as [[Hne _] _].
  now apply getitem_last_app.
Qed.

Lemma name_spec_witness :
  produced (MkS3Path ["bucket"; "folder"; "file.txt"] true)
  /\ exists n, name (MkS3Path ["bucket"; "folder"; "file.txt"] true) = Ok n
               /\ ["bucket"; "folder"; "file.txt"]
                  = removelast ["bucket"; "folder"; "file.txt"] ++ [n].
Proof.
  assert (produced (MkS3Path ["bucket"; "folder"; "file.txt"] true)) as H.
  { exact (produced_init "s3://bucket/folder/file.txt" _ eq_refl). }
  split; [exact H|exact (name_spec _ H)].
Defined.

(** X10.  A path of two parts or more is its parent joined with its
    name. *)
Theorem parent_name_join (p : S3Path) :
  produced p ->
  2 <= List.length (parts p) ->
  exists q n, parent p = Ok (Some q) /\ name p = Ok n
              /\ __truediv__ q (inl n) = Ok p.
Proof.
  intros H Hlen. apply produced_wf in H.
  destruct (parent_of_wf p H Hlen) as [Hp Hq].
  destruct H as [[Hne Hall] Ha].
  destruct (getitem_last_app _ Hne) as (n & Hn & Hl).
  exists (MkS3Path (removelast (parts p)) (is_absolute p)), n.
  repeat split; [assumption|assumption|].
  assert (_is_valid_part n = true) as Hv.
  { rewrite Forall_forall in Hall. apply Hall. rewrite Hl.
    apply in_or_app. right. now left. }
  destruct (valid_part_head _ Hv) as (c & Hc & Hs).
  unfold __truediv__.
  rewrite (lstrip_head _ _ _ Hc (mem_slash_string _ Hs)).
  assert (valid_parts [n]) as Hvn by (split; [discriminate|now constructor]).
  pose proof (__init___relative [n] Hvn) as Hi. simpl join in Hi.
  rewrite Hi. simpl. rewrite <- Hl.
  destruct p as [ps a]. now apply from_parts_ok.
Qed.

Lemma parent_name_join_witness :
  produced (MkS3Path ["bucket"; "folder"; "file.txt"] true)
  /\ exists q n, parent (MkS3Path ["bucket"; "folder"; "file.txt"] true) = Ok (Some q)
                 /\ name (MkS3Path ["bucket"; "folder"; "file.txt"] true) = Ok n
                 /\ __truediv__ q (inl n)
                    = Ok (MkS3Path ["bucket"; "folder"; "file.txt"] true).
Proof.
  assert (produced (MkS3Path ["bucket"; "folder"; "file.txt"] true)) as H.
  { exact (produced_init "s3://bucket/folder/file.txt" _ eq_refl). }
  split; [exact H|].
  apply (parent_name_join _ H). simpl. lia.
Defined.

(** *** [__truediv__] *)

Lemma valid_parts_app (ps qs : list string) :
  valid_parts ps -> valid_parts qs -> valid_parts (ps ++ qs).
Proof.
  intros [Hne Hp] [_ Hq]. split; [|now apply Forall_app].
  destruct ps; [congruence|discriminate].
Qed.

Lemma join_parts_ok (p o : S3Path) :
  wf p -> valid_parts (parts o) ->
  from_parts (parts p ++ parts o) (is_absolute p)
  = Ok (MkS3Path (parts p ++ parts o) (is_absolute p))
  /\ wf (MkS3Path (parts p ++ parts o) (is_absolute p)).
Proof.
  intros [Hv Ha] Ho.
  assert (wf (MkS3Path (parts p ++ parts o) (is_absolute p))) as [Hv' Ha'].
  { split; simpl; [now apply valid_parts_app|].
    intros E. destruct (Ha E) as (b & rest & -> & Hb & Hc).
    now exists b, (rest ++ parts o). }
  split; [now apply from_parts_ok|now split].
Qed.

(** X11.  Joining a relative path onto a path appends its parts and keeps
    the absoluteness of the receiver. *)
Theorem truediv_relative_path (p o : S3Path) :
  produced p -> produced o ->
  is_absolute o = false ->
  __truediv__ p (inr o) = Ok (MkS3Path (parts p ++ parts o) (is_absolute p)).
Proof.
  intros Hp Ho E. apply produced_wf in Hp, Ho.
  unfold __truediv__. rewrite E. simpl.
  apply join_parts_ok; [assumption|apply Ho].
Qed.

Lemma truediv_relative_path_witness :
  __truediv__ (MkS3Path ["bucket"; "folder"] true)
              (inr (MkS3Path ["folder2"; "file.txt"] false))
  = Ok (MkS3Path ["bucket"; "folder"; "folder2"; "file.txt"] true).
Proof.
  apply (truediv_relative_path (MkS3Path ["bucket"; "folder"] true)
           (MkS3Path ["folder2"; "file.txt"] false)).
  - exact (produced_init "s3://bucket/folder" _ eq_refl).
  - exact (produced_init "folder2/file.txt" _ eq_refl).
  - reflexivity.
Defined.

(** X12.  Joining a string onto a path succeeds exactly when the string,
    its leading slashes removed, parses; the parts parsed are then appended
    and the absoluteness of the receiver is kept.  When it does not parse,
    the join raises what the constructor raises. *)
Theorem truediv_string (p : S3Path) (s : string) :
  produced p ->
  __truediv__ p (inl s)
  = (q <- __init__ (lstrip s "/") ;;
     Ok (MkS3Path (parts p ++ parts q) (is_absolute p))).
Proof.
  intros Hp. apply produced_wf in Hp. unfold __truediv__.
  destruct (__init__ (lstrip s "/")) as [q|e] eqn:E; simpl; [|reflexivity].
  apply __init___wf in E. apply join_parts_ok; [assumption|apply E].
Qed.

Lemma truediv_string_witness :
  produced (MkS3Path ["folder"] false)
  /\ __truediv__ (MkS3Path ["folder"] false) (inl "/a//b") = Raise InvalidPathError.
Proof.
  assert (produced (MkS3Path ["folder"] false)) as H.
  { exact (produced_init "folder" _ eq_refl). }
  split; [exact H|].
  exact (truediv_string _ "/a//b" H).
Defined.

(** X13.  Joining relative paths is associative. *)
Theorem truediv_assoc (p q r : S3Path) :
  produced p -> produced q -> produced r ->
  is_absolute q = false -> is_absolute r = false ->
  (x <- __truediv__ p (inr q) ;; __truediv__ x (inr r))
  = (y <- __truediv__ q (inr r) ;; __truediv__ p (inr y))
  /\ (x <- __truediv__ p (inr q) ;; __truediv__ x (inr r))
     = Ok (MkS3Path (parts p ++ parts q ++ parts r) (is_absolute p)).
Proof.
  intros Hp Hq Hr Eq Er. apply produced_wf in Hp, Hq, Hr.
  assert (__truediv__ p (inr q)
          = Ok (MkS3Path (parts p ++ parts q) (is_absolute p))) as Hpq.
  { unfold __truediv__. rewrite Eq. simpl. apply join_parts_ok; [assumption|apply Hq]. }
  assert (__truediv__ q (inr r)
          = Ok (MkS3Path (parts q ++ parts r) (is_absolute q))) as Hqr.
  { unfold __truediv__. rewrite Er. simpl. apply join_parts_ok; [assumption|apply Hr]. }
  destruct (join_parts_ok p q Hp (proj1 Hq)) as [_ Wpq].
  destruct (join_parts_ok q r Hq (proj1 Hr)) as [_ Wqr].
  rewrite Hpq, Hqr. simpl bind.
  assert (__truediv__ (MkS3Path (parts p ++ parts q) (is_absolute p)) (inr r)
          = Ok (MkS3Path (parts p ++ parts q ++ parts r) (is_absolute p))) as H1.
  { unfold __truediv__. rewrite Er. simpl bind.
    rewrite (app_assoc (parts p)).
    apply (join_parts_ok _ r Wpq (proj1 Hr)). }
  assert (__truediv__ p (inr (MkS3Path (parts q ++ parts r) (is_absolute q)))
          = Ok (MkS3Path (parts p ++ parts q ++ parts r) (is_absolute p))) as H2.
  { unfold __truediv__. simpl is_absolute. rewrite Eq. simpl bind.
    apply (join_parts_ok p _ Hp (proj1 Wqr)). }
  rewrite H1, H2. now split.
Qed.

Lemma truediv_assoc_witness :
  (x <- __truediv__ (MkS3Path ["bucket"] true) (inr (MkS3Path ["a"] false)) ;;
   __truediv__ x (inr (MkS3Path ["b"; "c"] false)))
  = Ok (MkS3Path ["bucket"; "a"; "b"; "c"] true).
Proof.
  apply (truediv_assoc (MkS3Path ["bucket"] true) (MkS3Path ["a"] false)
           (MkS3Path ["b"; "c"] false)).
  - exact (produced_init "s3://bucket" _ eq_refl).
  - exact (produced_init "a" _ eq_refl).
  - exact (produced_init "b/c" _ eq_refl).
  - reflexivity.
  - reflexivity.
Defined.

(** *** [to_absolute] *)

(** X14.  What [to_absolute] returns is absolute, and converting it again
    returns it unchanged. *)
Theorem to_absolute_idempotent (p q : S3Path) :
  to_absolute p = Ok q ->
  is_absolute q = true /\ to_absolute q = Ok q.
Proof.
  intros H.
  assert (is_absolute q = true) as E.
  { unfold to_absolute in H. destruct (is_absolute p) eqn:Ep.
    - now injection H as <-.
    - exact (from_parts_is_absolute_aux _ _ _ H). }
  split; [exact E|]. unfold to_absolute. now rewrite E.
Qed.

Lemma to_absolute_idempotent_witness :
  to_absolute (MkS3Path ["bucket"; "key"] false) = Ok (MkS3Path ["bucket"; "key"] true)
  /\ to_absolute (MkS3Path ["bucket"; "key"] true) = Ok (MkS3Path ["bucket"; "key"] true).
Proof.
  split; [reflexivity|].
  exact (proj2 (to_absolute_idempotent (MkS3Path ["bucket"; "key"] false) _ eq_refl)).
Defined.

(** X15.  On a relative path [to_absolute] raises [InvalidBucketError] when
    the first part is no bucket name, and returns the absolute path of the
    same parts when it is one that starts with neither [s] nor [3]. *)
Theorem to_absolute_relative (p : S3Path) (b : string) (rest : list string) :
  produced p ->
  is_absolute p = false ->
  parts p = b :: rest ->
  (fullmatch_DNS_NAME_REGEX b = false -> to_absolute p = Raise InvalidBucketError)
  /\ (fullmatch_DNS_NAME_REGEX b = true ->
      startswith b "s" = false -> startswith b "3" = false ->
      to_absolute p = Ok (MkS3Path (parts p) true)).
Proof.
  intros H E Hp. apply produced_wf in H as [Hv _].
  destruct p as [ps a]. simpl in *. subst a ps. split.
  - now apply to_absolute_invalid_bucket.
  - intros Hb Hs H3. apply to_absolute_clean; [assumption|assumption|].
    now apply clean_head_s3.
Qed.

Lemma to_absolute_relative_witness :
  produced (MkS3Path ["bucket"; "folder"] false)
  /\ to_absolute (MkS3Path ["bucket"; "folder"] false)
     = Ok (MkS3Path ["bucket"; "folder"] true).
Proof.
  assert (produced (MkS3Path ["bucket"; "folder"] false)) as H.
  { exact (produced_init "bucket/folder" _ eq_refl). }
  split; [exact H|].
  apply (proj2 (to_absolute_relative _ "bucket" ["folder"] H eq_refl eq_refl));
    reflexivity.
Defined.

(** *** [with_bucket] *)

Lemma invalid_head_parts (b : string) (rest : list string) :
  _is_valid_part b = false -> ~ valid_parts (b :: rest).
Proof. intros H V. apply valid_parts_cons in V as [V _]. congruence. Qed.

(** X16.  What [with_bucket] returns is absolute. *)
Theorem with_bucket_is_absolute (p : S3Path) (b : string) (q : S3Path) :
  with_bucket p b = Ok q -> is_absolute q = true.
Proof.
  unfold with_bucket. intros H.
  apply bind_ok in H as (_ & _ & H).
  apply bind_ok in H as (new_parts & _ & H).
  exact (from_parts_is_absolute_aux _ _ _ H).
Qed.

Lemma with_bucket_is_absolute_witness :
  with_bucket (MkS3Path ["some"; "path"] false) "/bucket/"
  = Ok (MkS3Path ["bucket"; "some"; "path"] true)
  /\ is_absolute (MkS3Path ["bucket"; "some"; "path"] true) = true.
Proof.
  split; [reflexivity|].
  exact (with_bucket_is_absolute (MkS3Path ["some"; "path"] false) "/bucket/" _ eq_refl).
Defined.

(** X17.  On a relative path [with_bucket] puts the bucket, its slashes
    trimmed, in front of the parts, when the trimmed bucket is a non-empty
    valid name that starts with neither [s] nor [3]. *)
Theorem with_bucket_relative (p : S3Path) (b : string) :
  produced p ->
  is_absolute p = false ->
  fullmatch_DNS_NAME_REGEX (strip b "/") = true ->
  strip b "/" <> EmptyString ->
  startswith (strip b "/") "s" = false ->
  startswith (strip b "/") "3" = false ->
  with_bucket p b = Ok (MkS3Path (strip b "/" :: parts p) true).
Proof.
  intros H E Hb Hne Hs H3. apply produced_wf in H as [[_ Hall] _].
  unfold with_bucket. rewrite (proj2 (_validate_bucket_ok _) Hb), E. simpl.
  apply from_parts_ok.
  - apply valid_parts_cons. split; [now apply bucket_is_valid_part|assumption].
  - intros _. exists (strip b "/"), (parts p). repeat split; [assumption|].
    now apply clean_head_s3.
Qed.

Lemma with_bucket_relative_witness :
  produced (MkS3Path ["some"; "path"] false)
  /\ with_bucket (MkS3Path ["some"; "path"] false) "/bucket/"
     = Ok (MkS3Path ["bucket"; "some"; "path"] true).
Proof.
  assert (produced (MkS3Path ["some"; "path"] false)) as H.
  { exact (produced_init "some/path" _ eq_refl). }
  split; [exact H|].
  apply (with_bucket_relative _ "/bucket/" H); try reflexivity. discriminate.
Defined.

(** X18.  On an absolute path [with_bucket] replaces the first part and
    keeps the key, when the bucket is a non-empty valid name that starts
    with neither [s] nor [3]. *)
Theorem with_bucket_absolute (p : S3Path) (b : string) :
  produced p ->
  is_absolute p = true ->
  fullmatch_DNS_NAME_REGEX b = true ->
  b <> EmptyString ->
  startswith b "s" = false ->
  startswith b "3" = false ->
  with_bucket p b = Ok (MkS3Path (b :: tl (parts p)) true)
  /\ key (MkS3Path (b :: tl (parts p)) true) = key p.
Proof.
  intros H E Hb Hne Hs H3. apply produced_wf in H as [[Hnil Hall] _].
  split.
  - unfold with_bucket.
    rewrite (strip_no_slash _ (bucket_no_slash _ Hb)).
    rewrite (proj2 (_validate_bucket_ok _) Hb), E. simpl.
    destruct (parts p) as [|x rest]; [congruence|]. simpl.
    apply from_parts_ok.
    + apply valid_parts_cons. split; [now apply bucket_is_valid_part|].
      now inversion Hall.
    + intros _. exists b, rest. repeat split; [assumption|].
      now apply clean_head_s3.
  - unfold key. simpl. now rewrite E.
Qed.

Lemma with_bucket_absolute_witness :
  produced (MkS3Path ["bucket"; "some"; "file.txt"] true)
  /\ with_bucket (MkS3Path ["bucket"; "some"; "file.txt"] true) "new-bucket"
     = Ok (MkS3Path ["new-bucket"; "some"; "file.txt"] true).
Proof.
  assert (produced (MkS3Path ["bucket"; "some"; "file.txt"] true)) as H.
  { exact (produced_init "s3://bucket/some/file.txt" _ eq_refl). }
  split; [exact H|].
  apply (with_bucket_absolute _ "new-bucket" H); try reflexivity. discriminate.
Defined.

(** X19.  On an absolute path the bucket is stored as it was given, not
    trimmed: a bucket with a slash raises [InvalidPathError] even when it is
    a valid name once trimmed. *)
Theorem with_bucket_untrimmed_raises (p : S3Path) (b : string) :
  produced p ->
  is_absolute p = true ->
  mem slash b = true ->
  fullmatch_DNS_NAME_REGEX (strip b "/") = true ->
  with_bucket p b = Raise InvalidPathError.
Proof.
  intros H E Hs Hb. apply produced_wf in H as [[Hnil _] _].
  unfold with_bucket. rewrite (proj2 (_validate_bucket_ok _) Hb), E. simpl.
  destruct (parts p) as [|x rest]; [congruence|]. simpl.
  unfold from_parts. rewrite _validate_parts_invalid; [reflexivity|].
  apply invalid_head_parts. unfold _is_valid_part.
  now rewrite Hs, andb_false_r.
Qed.

Lemma with_bucket_untrimmed_raises_witness :
  produced (MkS3Path ["bucket"; "file.txt"] true)
  /\ with_bucket (MkS3Path ["bucket"; "file.txt"] true) "new-bucket/"
     = Raise InvalidPathError.
Proof.
  assert (produced (MkS3Path ["bucket"; "file.txt"] true)) as H.
  { exact (produced_init "s3://bucket/file.txt" _ eq_refl). }
  split; [exact H|].
  apply (with_bucket_untrimmed_raises _ "new-bucket/" H); reflexivity.
Defined.

(** X20.  The bucket pattern matches the empty string, so a bucket that is
    empty or made of slashes only passes [_validate_bucket]; [with_bucket]
    then raises [InvalidPathError], not [InvalidBucketError]. *)
Theorem with_bucket_empty_raises (p : S3Path) (b : string) :
  produced p ->
  strip b "/" = EmptyString ->
  with_bucket p b = Raise InvalidPathError.
Proof.
  intros H Hb. apply produced_wf in H as [[Hnil _] _].
  unfold with_bucket. rewrite Hb.
  change (_validate_bucket "") with (Ok tt). cbn [bind].
  assert (_is_valid_part b = false) as Hinv.
  { destruct b as [|c b]; [reflexivity|].
    unfold _is_valid_part.
    rewrite (strip_empty_slash _ Hb) by discriminate.
    now rewrite andb_false_r. }
  destruct (is_absolute p).
  - destruct (parts p) as [|x rest]; [congruence|]. simpl.
    unfold from_parts. rewrite _validate_parts_invalid; [reflexivity|].
    now apply invalid_head_parts.
  - simpl. unfold from_parts. rewrite _validate_parts_invalid; [reflexivity|].
    now apply invalid_head_parts.
Qed.

Lemma with_bucket_empty_raises_witness :
  produced (MkS3Path ["some"; "path"] false)
  /\ _validate_bucket "" = Ok tt
  /\ with_bucket (MkS3Path ["some"; "path"] false) "//" = Raise InvalidPathError.
Proof.
  assert (produced (MkS3Path ["some"; "path"] false)) as H.
  { exact (produced_init "some/path" _ eq_refl). }
  split; [exact H|]. split; [reflexivity|].
  exact (with_bucket_empty_raises _ "//" H eq_refl).
Defined.

(** X21.  [with_bucket] raises [InvalidBucketError] when the trimmed bucket
    is no valid name, whatever the path; on a path of the class it raises
    nothing but [InvalidBucketError] and [InvalidPathError]. *)
Theorem with_bucket_raises (p : S3Path) (b : string) :
  (fullmatch_DNS_NAME_REGEX (strip b "/") = false ->
   with_bucket p b = Raise InvalidBucketError)
  /\ (produced p -> forall e, with_bucket p b = Raise e ->
      e = InvalidBucketError \/ e = InvalidPathError).
Proof.
  split.
  - intros Hb. unfold with_bucket, _validate_bucket. now rewrite Hb.
  - intros H e. apply produced_wf in H as [[Hnil _] _].
    unfold with_bucket.
    destruct (_validate_bucket (strip b "/")) as [[]|e'] eqn:B; simpl.
    + assert (forall ps, from_parts ps true = Raise e ->
                         e = InvalidBucketError \/ e = InvalidPathError) as F.
      { intros ps Hf. apply from_parts_raises_aux in Hf as [->|[-> _]]; auto. }
      destruct (is_absolute p); simpl; [|apply F].
      destruct (parts p) as [|x rest]; [congruence|]. simpl. apply F.
    + apply _validate_bucket_raises in B. intros [= <-]. auto.
Qed.

Lemma with_bucket_raises_witness :
  with_bucket (MkS3Path ["some"; "path"] false) "not$a%valid&bucket*name!"
  = Raise InvalidBucketError.
Proof.
  apply (proj1 (with_bucket_raises _ "not$a%valid&bucket*name!")). reflexivity.
Defined.

(** *** The two validators, [bucket] and [key] *)

(** X22.  A non-empty name that [_validate_bucket] accepts is a part that
    [_validate_parts] accepts. *)
Theorem valid_bucket_valid_part (b : string) :
  _validate_bucket b = Ok tt ->
  b <> EmptyString ->
  _validate_parts [b] = Ok tt.
Proof.
  intros Hb Hne. apply _validate_bucket_ok in Hb.
  apply _validate_parts_ok, valid_parts_cons.
  split; [now apply bucket_is_valid_part|constructor].
Qed.

Lemma valid_bucket_valid_part_witness :
  _validate_bucket "my-bucket-1" = Ok tt
  /\ _validate_parts ["my-bucket-1"] = Ok tt.
Proof.
  split; [reflexivity|].
  apply valid_bucket_valid_part; [reflexivity|discriminate].
Defined.

(** X23.  An absolute path is recovered from its bucket and its key: the
    text made of the prefix, the bucket, a slash and the key parses to the
    path, also when the key is empty. *)
Theorem bucket_key_parse (p : S3Path) :
  produced p ->
  is_absolute p = true ->
  exists b k, bucket p = Ok b /\ key p = Ok k
              /\ __init__ (_PREFIX ++ b ++ "/" ++ k)%string = Ok p.
Proof.
  intros H E. apply produced_wf in H as [Hv Ha].
  destruct (Ha E) as (b & rest & Hp & Hb & Hc).
  destruct p as [ps a]. simpl in *. subst a ps.
  exists b, (join "/" rest). repeat split.
  pose proof (__init___absolute b rest Hv Hb Hc) as Hi.
  destruct rest as [|y l]; [|exact Hi].
  simpl join in *.
  apply (__init___trailing_slash (_PREFIX ++ b)%string _ Hi).
  discriminate.
Qed.

Lemma bucket_key_parse_witness :
  produced (MkS3Path ["bucket"] true)
  /\ exists b k, bucket (MkS3Path ["bucket"] true) = Ok b
                 /\ key (MkS3Path ["bucket"] true) = Ok k
                 /\ __init__ (_PREFIX ++ b ++ "/" ++ k)%string
                    = Ok (MkS3Path ["bucket"] true).
Proof.
  assert (produced (MkS3Path ["bucket"] true)) as H.
  { exact (produced_init "s3://bucket" _ eq_refl). }
  split; [exact H|exact (bucket_key_parse _ H eq_refl)].
Defined.

(** X24.  The bucket of an absolute path is never empty and never starts
    with [s] or [3]: the constructor strips these characters together with
    the prefix. *)
Theorem absolute_bucket_head (p : S3Path) :
  produced p ->
  is_absolute p = true ->
  exists b, bucket p = Ok b /\ b <> EmptyString
            /\ startswith b "s" = false /\ startswith b "3" = false.
Proof.
  intros H E. apply produced_wf in H as [[_ Hall] Ha].
  destruct (Ha E) as (b & rest & Hp & Hb & Hc).
  exists b. split; [unfold bucket; now rewrite E, Hp|].
  split.
  - rewrite Hp in Hall. inversion Hall as [|? ? Hv _]; subst.
    now apply _is_valid_part_inv in Hv.
  - now apply clean_head_s3.
Qed.

Lemma absolute_bucket_head_witness :
  produced (MkS3Path ["ome"; "path"] true)
  /\ exists b, bucket (MkS3Path ["ome"; "path"] true) = Ok b /\ b <> EmptyString
               /\ startswith b "s" = false /\ startswith b "3" = false.
Proof.
  assert (produced (MkS3Path ["ome"; "path"] true)) as H.
  { exact (produced_init "s3://some/path" _ eq_refl). }
  split; [exact H|exact (absolute_bucket_head _ H eq_refl)].
Defined.
